(** * Firecrawl MCP server: argument guards and the dispatch engine

    The first part embeds the type guards of [src/index.ts]
    ([isScrapeOptions], [isMapOptions], [isCrawlOptions],
    [isBatchScrapeOptions], [isStatusCheckOptions]) together with the
    fragment of JavaScript they are written in: [typeof], strict
    equality, the [in] operator, member access, [Array.isArray],
    [Array.prototype.every] and the short-circuit [&&].  Operators that
    can raise a [TypeError] are modelled in an error monad, so that the
    guards' totality is a theorem and not an artefact of the embedding.

    The second part models the dispatch engine that the design document
    ([spec.md]) describes and [src/index.ts] does not contain: the
    credit ledger, the backoff policy, the rate limiter, the job tracker
    and the dispatcher. *)

From Stdlib Require Import ZArith NArith Lia Ascii String.
From stdpp Require Import base option list gmap strings fin_maps.

Open Scope string_scope.

(** ** JavaScript values carried by a tool invocation *)

Module Js.

(** The arguments of a tool call are the [arguments] member of a decoded
    JSON-RPC request: plain data, or [undefined] when the member is
    absent.  The remaining primitives ([bigint], [symbol]) are included
    so that every [typeof] class of a primitive is covered.  Numbers are
    kept opaque (no guard looks at a numeric value).  Objects are plain
    data objects: accessor properties and proxies, which can run code on
    [in] or on member access, cannot come out of a JSON decoder. *)
#[warnings="-register-all"]
Inductive value : Type :=
| Undefined
| Null
| Bool (b : bool)
| Number (n : Z)
| Str (s : string)
| BigInt (n : Z)
| Symbol (description : string)
| Arr (elems : list value)
| Obj (props : gmap string value).

(** Evaluation either completes with a value or throws a [TypeError]. *)
Inductive completion (A : Type) : Type :=
| Return (a : A)
| ThrowTypeError.
Arguments Return {A} a.
Arguments ThrowTypeError {A}.

(** Sequencing: a throw in [c] skips the continuation. *)
Definition bind {A B} (c : completion A) (k : A -> completion B) : completion B :=
  match c with
  | Return a => k a
  | ThrowTypeError => ThrowTypeError
  end.

(** [a && b]: the right operand is only evaluated when the left one is
    truthy; a throwing left operand propagates. *)
Definition and_then (a b : completion bool) : completion bool :=
  match a with
  | Return true => b
  | Return false => Return false
  | ThrowTypeError => ThrowTypeError
  end.

Notation "'let*' x ':=' c 'in' k" := (bind c (fun x => k))
  (at level 10, x name, c at level 100, k at level 200).
Infix "&&&" := and_then (at level 40, left associativity).

(** [typeof v] *)
Definition typeof (v : value) : string :=
  match v with
  | Undefined => "undefined"
  | Null => "object"
  | Bool _ => "boolean"
  | Number _ => "number"
  | Str _ => "string"
  | BigInt _ => "bigint"
  | Symbol _ => "symbol"
  | Arr _ => "object"
  | Obj _ => "object"
  end.

(** [v !== null] *)
Definition not_null (v : value) : bool :=
  match v with
  | Null => false
  | _ => true
  end.

(** [Array.isArray(v)] *)
Definition isArray (v : value) : bool :=
  match v with
  | Arr _ => true
  | _ => false
  end.

(** Value of a decimal digit character. *)
Definition digit_of (c : ascii) : option nat :=
  let n := nat_of_ascii c in
  if (48 <=? n)%nat && (n <=? 57)%nat then Some (n - 48)%nat else None.

(** The number written by a string of decimal digits, after [acc]. *)
Fixpoint parse_digits (s : string) (acc : nat) : option nat :=
  match s with
  | EmptyString => Some acc
  | String c s' =>
      match digit_of c with
      | Some d => parse_digits s' (10 * acc + d)%nat
      | None => None
      end
  end.

(** Canonical array index denoted by a property key, if any: a decimal
    numeral without leading zero. *)
Definition array_index (k : string) : option nat :=
  match k with
  | EmptyString => None
  | String c rest =>
      if Ascii.eqb c "0"%char
      then (if String.eqb rest "" then Some 0%nat else None)
      else parse_digits k 0
  end.

(** Own property of a value under key [k].  The standard prototypes
    define no member called [url], [urls] or [id], so at the keys the
    guards use, the [in] operator and member access are decided by the
    own properties alone. *)
Definition own_property (v : value) (k : string) : option value :=
  match v with
  | Obj props => props !! k
  | Arr elems =>
      if String.eqb k "length" then Some (Number (Z.of_nat (length elems)))
      else match array_index k with
           | Some i => elems !! i
           | None => None
           end
  | Str s =>
      if String.eqb k "length" then Some (Number (Z.of_nat (String.length s)))
      else match array_index k with
           | Some i =>
               match String.get i s with
               | Some c => Some (Str (String c EmptyString))
               | None => None
               end
           | None => None
           end
  | _ => None
  end.

(** [k in v]: a [TypeError] unless the right operand is an object
    (primitive strings included: ['length' in 'abc'] throws). *)
Definition in_op (k : string) (v : value) : completion bool :=
  match v with
  | Obj _ | Arr _ => Return (bool_decide (is_Some (own_property v k)))
  | _ => ThrowTypeError
  end.

(** [v.k]: a [TypeError] on [null] and [undefined], [undefined] for a
    missing property. *)
Definition get (v : value) (k : string) : completion value :=
  match v with
  | Undefined | Null => ThrowTypeError
  | _ => Return (default Undefined (own_property v k))
  end.

(** [v.every(cb)]: a [TypeError] unless [v] is an array (no other value
    of this model has a callable [every]); stops at the first element
    the callback rejects. *)
Fixpoint every_elems (cb : value -> completion bool) (l : list value) : completion bool :=
  match l with
  | [] => Return true
  | x :: l' => cb x &&& every_elems cb l'
  end.

(** [v.every(cb)] as a method call on any value. *)
Definition every (v : value) (cb : value -> completion bool) : completion bool :=
  match v with
  | Arr elems => every_elems cb elems
  | _ => ThrowTypeError
  end.

End Js.

Import Js.

(** ** The type guards of [src/index.ts] *)

Definition isScrapeOptions (args : value) : completion bool :=
  Return (String.eqb (typeof args) "object") &&&
  Return (not_null args) &&&
  in_op "url" args &&&
  (let* url := get args "url" in
   Return (String.eqb (typeof url) "string")).

Definition isMapOptions (args : value) : completion bool :=
  Return (String.eqb (typeof args) "object") &&&
  Return (not_null args) &&&
  in_op "url" args &&&
  (let* url := get args "url" in
   Return (String.eqb (typeof url) "string")).

Definition isCrawlOptions (args : value) : completion bool :=
  Return (String.eqb (typeof args) "object") &&&
  Return (not_null args) &&&
  in_op "url" args &&&
  (let* url := get args "url" in
   Return (String.eqb (typeof url) "string")).

Definition isBatchScrapeOptions (args : value) : completion bool :=
  Return (String.eqb (typeof args) "object") &&&
  Return (not_null args) &&&
  in_op "urls" args &&&
  (let* urls := get args "urls" in
   Return (isArray urls)) &&&
  (let* urls := get args "urls" in
   every urls (fun url => Return (String.eqb (typeof url) "string"))).

Definition isStatusCheckOptions (args : value) : completion bool :=
  Return (String.eqb (typeof args) "object") &&&
  Return (not_null args) &&&
  in_op "id" args &&&
  (let* id := get args "id" in
   Return (String.eqb (typeof id) "string")).

(** ** Tool schemas of [src/index.ts]

    The top level of a tool's [inputSchema]: the declared JSON type of
    each property ([None] where the schema gives a [oneOf] instead of a
    [type]) and the list of required property names. *)

Record Tool : Type := {
  name : string;
  properties : list (string * option string);
  required : list string
}.

Definition SCRAPE_TOOL : Tool := {|
  name := "firecrawl_scrape";
  properties :=
    [ ("url", Some "string");
      ("formats", Some "array");
      ("onlyMainContent", Some "boolean");
      ("includeTags", Some "array");
      ("excludeTags", Some "array");
      ("waitFor", Some "number");
      ("timeout", Some "number");
      ("actions", Some "array");
      ("extract", Some "object");
      ("mobile", Some "boolean");
      ("skipTlsVerification", Some "boolean");
      ("removeBase64Images", Some "boolean");
      ("location", Some "object") ];
  required := ["url"]
|}.

Definition BATCH_SCRAPE_TOOL : Tool := {|
  name := "firecrawl_batch_scrape";
  properties := [ ("urls", Some "array"); ("options", Some "object") ];
  required := ["urls"]
|}.

(** Declared type of property [k], when the schema declares one. *)
Definition declared_type (t : Tool) (k : string) : option string :=
  match list_find (fun p => p.1 = k) (properties t) with
  | Some (_, (_, ty)) => ty
  | None => None
  end.

(** A value has the JSON-schema type [ty]. *)
Definition has_json_type (ty : string) (v : value) : Prop :=
  if String.eqb ty "array" then isArray v = true
  else if String.eqb ty "object" then (exists props, v = Obj props)
  else typeof v = ty.

(** The claim's reading of a guard: a non-null object with a [k] field
    holding a string. *)
Definition non_null_object_with_string (k : string) (v : value) : Prop :=
  typeof v = "object" /\ v <> Null /\ exists s, own_property v k = Some (Str s).

(** A value supplies every required property of a tool, each with the
    type the schema declares for it. *)
Definition supplies_required (t : Tool) (v : value) : Prop :=
  typeof v = "object" /\ v <> Null /\
  Forall (fun k => exists x ty, own_property v k = Some x /\
                               declared_type t k = Some ty /\
                               has_json_type ty x) (required t).

(** The shape shared by the three single-URL guards and the status
    guard, with the property key as a parameter. *)
Definition string_member_guard (k : string) (args : value) : completion bool :=
  Return (String.eqb (typeof args) "object") &&&
  Return (not_null args) &&&
  in_op k args &&&
  (let* x := get args k in Return (String.eqb (typeof x) "string")).

(** ** The remaining tool schemas of [src/index.ts] *)

Definition MAP_TOOL : Tool := {|
  name := "firecrawl_map";
  properties :=
    [ ("url", Some "string");
      ("search", Some "string");
      ("ignoreSitemap", Some "boolean");
      ("sitemapOnly", Some "boolean");
      ("includeSubdomains", Some "boolean");
      ("limit", Some "number") ];
  required := ["url"]
|}.

(** [webhook] is declared by a [oneOf], without a [type] of its own. *)
Definition CRAWL_TOOL : Tool := {|
  name := "firecrawl_crawl";
  properties :=
    [ ("url", Some "string");
      ("excludePaths", Some "array");
      ("includePaths", Some "array");
      ("maxDepth", Some "number");
      ("ignoreSitemap", Some "boolean");
      ("limit", Some "number");
      ("allowBackwardLinks", Some "boolean");
      ("allowExternalLinks", Some "boolean");
      ("webhook", None);
      ("deduplicateSimilarURLs", Some "boolean");
      ("ignoreQueryParameters", Some "boolean");
      ("scrapeOptions", Some "object") ];
  required := ["url"]
|}.

Definition CHECK_BATCH_STATUS_TOOL : Tool := {|
  name := "firecrawl_check_batch_status";
  properties := [ ("id", Some "string") ];
  required := ["id"]
|}.

Definition CHECK_CRAWL_STATUS_TOOL : Tool := {|
  name := "firecrawl_check_crawl_status";
  properties := [ ("id", Some "string") ];
  required := ["id"]
|}.

Definition SEARCH_TOOL : Tool := {|
  name := "firecrawl_search";
  properties :=
    [ ("query", Some "string");
      ("limit", Some "number");
      ("lang", Some "string");
      ("country", Some "string");
      ("tbs", Some "string");
      ("filter", Some "string");
      ("location", Some "object");
      ("scrapeOptions", Some "object") ];
  required := ["query"]
|}.

Definition EXTRACT_TOOL : Tool := {|
  name := "firecrawl_extract";
  properties :=
    [ ("urls", Some "array");
      ("prompt", Some "string");
      ("systemPrompt", Some "string");
      ("schema", Some "object");
      ("allowExternalLinks", Some "boolean");
      ("enableWebSearch", Some "boolean");
      ("includeSubdomains", Some "boolean") ];
  required := ["urls"]
|}.

Definition DEEP_RESEARCH_TOOL : Tool := {|
  name := "firecrawl_deep_research";
  properties :=
    [ ("query", Some "string");
      ("maxDepth", Some "number");
      ("timeLimit", Some "number");
      ("maxUrls", Some "number") ];
  required := ["query"]
|}.

Definition GENERATE_LLMSTXT_TOOL : Tool := {|
  name := "firecrawl_generate_llmstxt";
  properties :=
    [ ("url", Some "string");
      ("maxUrls", Some "number");
      ("showFullText", Some "boolean") ];
  required := ["url"]
|}.

(** The tool constants of [src/index.ts], in the order of their
    declarations. *)
Definition TOOLS : list Tool :=
  [ SCRAPE_TOOL; MAP_TOOL; CRAWL_TOOL; BATCH_SCRAPE_TOOL;
    CHECK_BATCH_STATUS_TOOL; CHECK_CRAWL_STATUS_TOOL; SEARCH_TOOL;
    EXTRACT_TOOL; DEEP_RESEARCH_TOOL; GENERATE_LLMSTXT_TOOL ].

(** The guards of [src/index.ts] that test one string-valued property,
    each with the key it reads, and all five guards with their keys. *)
Definition string_guards : list ((value -> completion bool) * string) :=
  [ (isScrapeOptions, "url"); (isMapOptions, "url"); (isCrawlOptions, "url");
    (isStatusCheckOptions, "id") ].

Definition all_guards : list ((value -> completion bool) * string) :=
  string_guards ++ [ (isBatchScrapeOptions, "urls") ].

(** A value is a string. *)
Definition is_string (v : value) : Prop := exists s, v = Str s.

(** A non-null object whose [k] field holds an array of strings (the
    [urls: string[]] of the [BatchScrapeOptions] interface). *)
Definition non_null_object_with_strings (k : string) (v : value) : Prop :=
  typeof v = "object" /\ v <> Null /\
  exists elems, own_property v k = Some (Arr elems) /\ Forall is_string elems.

(** * The request dispatch and resilience engine

    [src/index.ts] stops after the type guards: the ledger, the backoff
    policy, the rate limiter, the job tracker, the transport client and
    the dispatcher are described by the design document only.  Each is
    modelled below from its section of that document.  Time stamps and
    durations are integers (milliseconds), credit units are naturals. *)

Open Scope Z_scope.

(** ** Credit Ledger (design, sections 3 and 4.3) *)

Module CreditLedger.

(** Modelled from the spec: the Credit Ledger state and its contract
    [recordUsage], [remainingBudget], [wouldExceed] are missing from
    src/.  "Process-wide counter: units consumed, configured budget
    ceiling (optional, unset = unlimited)"; "counter increment; no
    rollback semantics".  The budget is not time-scoped here. *)
Record State : Type := {
  consumed : N;
  budgetCeiling : option N
}.

(** Modelled from the spec: [recordUsage(units)], a "counter increment"
    with "no rollback semantics". *)
Definition recordUsage (units : N) (l : State) : State :=
  {| consumed := (consumed l + units)%N; budgetCeiling := budgetCeiling l |}.

(** Modelled from the spec: [remainingBudget() -> Option<units>], absent
    when no ceiling is configured. *)
Definition remainingBudget (l : State) : option N :=
  match budgetCeiling l with
  | Some c => Some (c - consumed l)%N
  | None => None
  end.

(** Modelled from the spec: [wouldExceed(units) -> bool], the advisory
    pre-flight question. *)
Definition wouldExceed (units : N) (l : State) : bool :=
  match budgetCeiling l with
  | Some c => (c <? consumed l + units)%N
  | None => false
  end.

(** Modelled from the spec: "if a ceiling is configured, the Dispatcher
    must refuse new admission once consumed >= ceiling". *)
Definition exhausted (l : State) : bool :=
  match budgetCeiling l with
  | Some c => (c <=? consumed l)%N
  | None => false
  end.

(** Modelled from the spec: the ledger "requires a single point of
    serialized access", so the [recordUsage] calls of concurrent callers
    take effect as one sequence of atomic increments, the schedule. *)
Definition runSchedule (l : State) (schedule : list N) : State :=
  foldl (fun acc units => recordUsage units acc) l schedule.

(** The schedules that concurrent callers can produce: every caller
    issues its own calls in order, and the calls of different callers
    interleave arbitrarily.  [interleaving callers schedule] holds when
    [schedule] is such a merge of the callers' call sequences. *)
Inductive interleaving : list (list N) -> list N -> Prop :=
| interleaving_done (callers : list (list N)) :
    Forall (fun calls => calls = []) callers ->
    interleaving callers []
| interleaving_step (before after : list (list N)) (units : N)
                    (rest : list N) (schedule : list N) :
    interleaving (before ++ rest :: after) schedule ->
    interleaving (before ++ (units :: rest) :: after) (units :: schedule).

(** Sum of the usages of a sequence of calls. *)
Definition total (calls : list N) : N := foldr N.add 0%N calls.

End CreditLedger.

(** ** Backoff Policy (design, section 4.2) *)

Module Backoff.

(** Modelled from the spec: the Backoff Policy is missing from src/.
    A rate-limited error carries the upstream's retry-after hint "when
    present". *)
Inductive ErrorClass : Type :=
| RateLimited (retryAfter : option Z)
| ServerError
| NetworkTimeout
| Unknown.

(** Modelled from the spec: the policy's configuration, "base/max
    backoff delay" and "max retry attempts". *)
Record Config : Type := {
  baseDelay : Z;
  maxDelay : Z;
  maxAttempts : nat
}.

(** Modelled from the spec: "base delay x 2^attempt, capped at a maximum
    delay". *)
Definition computedDelay (cfg : Config) (attempt : nat) : Z :=
  Z.min (baseDelay cfg * 2 ^ Z.of_nat attempt) (maxDelay cfg).

(** Modelled from the spec: "randomized jitter (+- up to 50% of computed
    delay)".  The random draw is an explicit argument: a signed
    percentage of the computed delay, between -50 and 50. *)
Definition validJitter (j : Z) : Prop := -50 <= j <= 50.

(** Modelled from the spec: the computed delay [d] with the jitter of
    draw [j] applied, [j] percent of [d]. *)
Definition withJitter (d j : Z) : Z := d + d * j / 100.

(** Modelled from the spec: the largest jitter the policy can add, 50% of
    the maximum delay. *)
Definition maxJitter (cfg : Config) : Z := maxDelay cfg / 2.

(** Modelled from the spec: [nextDelay(attempt, errorClass)] of the
    policy that drew jitter [j].  The jitter is "randomized ... to avoid
    thundering-herd retries across concurrent requests": it is drawn
    once per logical operation, so that for one operation the delay is a
    function of the attempt count and the error class.  "RateLimited
    errors additionally honor an upstream-provided retry-after hint when
    present, overriding the computed delay if larger", and the delay
    "never exceeds (cap + max jitter)": a larger hint replaces the delay,
    as far as that bound allows. *)
Definition nextDelay (cfg : Config) (attempt : nat) (e : ErrorClass) (j : Z) : Z :=
  let d := withJitter (computedDelay cfg attempt) j in
  match e with
  | RateLimited (Some hint) => Z.min (Z.max d hint) (maxDelay cfg + maxJitter cfg)
  | _ => d
  end.

(** The retry-after hint an error class carries, if any. *)
Definition retryAfterOf (e : ErrorClass) : option Z :=
  match e with
  | RateLimited hint => hint
  | _ => None
  end.

End Backoff.

(** ** Rate Limiter (design, section 4.1) *)

Module RateLimiter.

(** Modelled from the spec: the Rate Limiter is missing from src/.
    "Requests-per-interval ceiling and interval length"; the design names
    a "bucket capacity" and a "refill rate" without giving their values,
    so both are parameters of the bucket: [capacity] tokens at most, and
    [refillPerInterval] tokens regained per [interval]. *)
Record Config : Type := {
  ceiling : Z;
  interval : Z;
  capacity : Z;
  refillPerInterval : Z
}.

(** Modelled from the spec: the bucket is provisioned for its ceiling
    ("never admits more than the configured ceiling within any rolling
    window") when it refills at all and a full bucket, together with the
    whole tokens it regains in less than one interval (fewer than
    [refillPerInterval]), stays within the ceiling. *)
Definition provisioned (cfg : Config) : Prop :=
  0 < refillPerInterval cfg /\
  capacity cfg + refillPerInterval cfg <= ceiling cfg + 1.

(** Modelled from the spec: the Rate Limiter state, "current token
    count" and "last refill timestamp".  The token count is kept in
    units of 1/[interval] token, so that the lazy refill loses no
    fraction of a token. *)
Record State : Type := {
  level : Z;
  lastRefill : Z
}.

(** Modelled from the spec: [Outcome{Admitted | MustWaitUntil(timestamp)}]. *)
Inductive Outcome : Type :=
| AdmittedNow
| MustWaitUntil (timestamp : Z).

(** Modelled from the spec: the level of a full bucket. *)
Definition fullLevel (cfg : Config) : Z := capacity cfg * interval cfg.

(** Modelled from the spec: a full bucket, last refilled at [now]. *)
Definition full (cfg : Config) (now : Z) : State :=
  {| level := fullLevel cfg; lastRefill := now |}.

(** Modelled from the spec: "refill computed lazily on each admission
    check from elapsed time since last refill, capped at bucket
    capacity". *)
Definition refill (cfg : Config) (now : Z) (s : State) : State :=
  {| level := Z.min (fullLevel cfg)
                    (level s + (now - lastRefill s) * refillPerInterval cfg);
     lastRefill := now |}.

(** Smallest [n] with [a <= n * b], for positive [b]. *)
Definition ceilDiv (a b : Z) : Z := (a + b - 1) / b.

(** Modelled from the spec: [admit(cost)] at wall-clock time [now], "if
    sufficient tokens exist, deduct and admit; otherwise compute the
    timestamp at which enough tokens will exist and return it". *)
Definition admitRequest (cfg : Config) (cost now : Z) (s : State) : Outcome * State :=
  let s' := refill cfg now s in
  let need := cost * interval cfg in
  if need <=? level s'
  then (AdmittedNow, {| level := level s' - need; lastRefill := now |})
  else (MustWaitUntil (now + ceilDiv (need - level s') (refillPerInterval cfg)), s').


(** An admission request: its arrival time and its cost. *)
Record Request : Type := {
  arrival : Z;
  cost : Z
}.

(** Modelled from the spec: "every admission check is a synchronized
    read-modify-write", so a sequence of admission requests is served
    one check after the other, each on the state the previous one left. *)
Fixpoint serve (cfg : Config) (s : State) (rs : list Request) : list (Request * Outcome) :=
  match rs with
  | [] => []
  | r :: rs' =>
      let '(o, s') := admitRequest cfg (cost r) (arrival r) s in
      (r, o) :: serve cfg s' rs'
  end.

(** The outcome is an admission. *)
Definition isAdmitted (o : Outcome) : bool :=
  match o with
  | AdmittedNow => true
  | MustWaitUntil _ => false
  end.




End RateLimiter.

(** ** Job Tracker (design, sections 3 and 4.5) *)

Module JobTracker.

(** Modelled from the spec: the Job Tracker is missing from src/.  "Job
    identifier, submission timestamp, current status (one of Pending,
    Processing, Completed, Failed), last-polled timestamp, accumulated
    result fragments, error detail if Failed". *)
Inductive Status : Type := Pending | Processing | Completed | Failed.

(** Modelled from the spec: the Job Record, with the attributes listed
    in section 3. *)
Record JobRecord : Type := {
  jobId : string;
  submittedAt : Z;
  status : Status;
  lastPolledAt : option Z;
  fragments : list string;
  errorDetail : option string
}.

(** Modelled from the spec: the result of a lookup, [Job Record |
    NotFound]. *)
Inductive Lookup : Type :=
| Found (r : JobRecord)
| NotFound.

(** Modelled from the spec: [create(jobId) -> Job Record]. *)
Definition create (id : string) (now : Z) (t : gmap string JobRecord)
  : JobRecord * gmap string JobRecord :=
  let r := {| jobId := id; submittedAt := now; status := Pending;
              lastPolledAt := None; fragments := []; errorDetail := None |} in
  (r, <[id := r]> t).

(** Modelled from the spec: [update(jobId, status, resultFragment?)],
    issued by the polling loop at time [now]. *)
Definition update (id : string) (st : Status) (fragment : option string)
           (now : Z) (t : gmap string JobRecord) : gmap string JobRecord :=
  alter (fun r => {| jobId := jobId r; submittedAt := submittedAt r;
                     status := st; lastPolledAt := Some now;
                     fragments := fragments r ++ option_list fragment;
                     errorDetail := errorDetail r |}) id t.

(** Modelled from the spec: a record is "destroyed (evicted) after a
    retention window or on explicit completion acknowledgment". *)
Definition evict (id : string) (t : gmap string JobRecord) : gmap string JobRecord :=
  delete id t.

(** Modelled from the spec: [get(jobId) -> Job Record | NotFound]. *)
Definition get (id : string) (t : gmap string JobRecord) : Lookup :=
  match t !! id with
  | Some r => Found r
  | None => NotFound
  end.

End JobTracker.

(** ** Transport Client and Dispatcher (design, sections 4.4, 5, 6 and 7) *)

Module Dispatcher.

(** Modelled from the spec: the Operation Request, "a tagged variant over
    {Scrape, Map, Crawl, BatchScrape, Search, Extract, CheckBatchStatus,
    CheckCrawlStatus, DeepResearch, GenerateLlmsText}, each carrying a
    parameter payload". *)
Inductive OperationKind : Type :=
| Scrape | Map | Crawl | BatchScrape | Search | Extract
| CheckBatchStatus | CheckCrawlStatus | DeepResearch | GenerateLlmsText.

(** Modelled from the spec: a typed Operation Request, the variant tag
    with its parameter payload. *)
Record OperationRequest : Type := {
  kind : OperationKind;
  payload : value
}.

(** Modelled from the spec: what the upstream service answers, already
    classified: "a success flag, a result payload, optional usage/credit
    count, optional job identifier for async operations, and optional
    error detail with an HTTP-status-derived classification". *)
Inductive Response : Type :=
| Success (result : string) (usage : option N) (job : option string)
| TransientError (e : Backoff.ErrorClass)
| PermanentError (detail : string).

(** Modelled from the spec: the failure taxonomy of section 7. *)
Inductive FailureKind : Type :=
| ValidationFailure
| RateLimited
| TransientFailure
| BudgetExceeded
| PermanentFailure
| PollTimedOut.

(** Modelled from the spec: "only the terminal outcome crosses back to the
    caller"; a failure is "one of the named kinds plus a human-readable
    detail string". *)
Inductive Outcome : Type :=
| Succeeded (result : string)
| Submitted (job : string)
| Failed (failure : FailureKind) (detail : string)
| Abandoned.

(** Detail strings of the failures the Dispatcher raises itself. *)
Definition exhaustedDetail : string := "retry attempts exhausted".
Definition budgetDetail : string := "credit budget exhausted".
Definition invalidDetail : string := "invalid arguments".
Definition deadlineDetail : string := "operation deadline exceeded".
Definition limiterDetail : string := "not admitted by the rate limiter".

(** Modelled from the spec: the configuration surface used by the
    synchronous dispatch cycle, "overall per-operation deadline"
    included (a duration, counted from the start of the dispatch). *)
Record Config : Type := {
  backoff : Backoff.Config;
  rate : RateLimiter.Config;
  costOf : OperationKind -> Z;
  deadline : Z
}.

(** Modelled from the spec: the surroundings of one logical operation,
    made explicit: the upstream's answer to the n-th transport call, the
    jitter the operation drew, and whether the caller has abandoned the
    operation by a given time ("cancellation is modeled as a flag"). *)
Record Env : Type := {
  upstream : OperationRequest -> nat -> Response;
  jitter : Z;
  cancelled : Z -> bool
}.

(** Modelled from the spec: the shared state the Dispatcher threads
    through, with the wall clock and the number of Transport Client
    invocations made so far. *)
Record World : Type := {
  ledger : CreditLedger.State;
  limiter : RateLimiter.State;
  tracker : gmap string JobTracker.JobRecord;
  clock : Z;
  transportCalls : nat
}.

(** Modelled from the spec: the Transport Client "performs one logical
    operation as a single network call" and records "usage from
    responses" in the Credit Ledger. *)
Definition transport (env : Env) (req : OperationRequest) (w : World) : Response * World :=
  let resp := upstream env req (transportCalls w) in
  let ledger' :=
    match resp with
    | Success _ (Some units) _ => CreditLedger.recordUsage units (ledger w)
    | _ => ledger w
    end in
  (resp, {| ledger := ledger'; limiter := limiter w; tracker := tracker w;
            clock := clock w; transportCalls := S (transportCalls w) |}).

(** Modelled from the spec: "Queued -> Admitted: Rate Limiter admits, or
    after waiting until the limiter's suggested retry timestamp".  The
    limiter gates admission: the result says whether the request was
    admitted, at once or at the suggested time; a request the limiter
    still refuses then is not admitted ("callers decide whether to wait
    or reject"). *)
Definition awaitAdmission (cfg : Config) (req : OperationRequest) (w : World)
  : bool * World :=
  let c := costOf cfg (kind req) in
  match RateLimiter.admitRequest (rate cfg) c (clock w) (limiter w) with
  | (RateLimiter.AdmittedNow, s) =>
      (true, {| ledger := ledger w; limiter := s; tracker := tracker w;
                clock := clock w; transportCalls := transportCalls w |})
  | (RateLimiter.MustWaitUntil t, s) =>
      let t' := Z.max (clock w) t in
      let '(o, s') := RateLimiter.admitRequest (rate cfg) c t' s in
      (RateLimiter.isAdmitted o,
       {| ledger := ledger w; limiter := s'; tracker := tracker w;
          clock := t'; transportCalls := transportCalls w |})
  end.

(** The world [w] with its clock set to [t]. *)
Definition atTime (t : Z) (w : World) : World :=
  {| ledger := ledger w; limiter := limiter w; tracker := tracker w;
     clock := t; transportCalls := transportCalls w |}.

(** Modelled from the spec: the cycle [Admitted -> InFlight -> {Succeeded
    | RetryScheduled | Failed}] with [RetryScheduled -> Admitted]
    "bounded by max attempts"; [attempt] is the attempt count (starts at
    0), [retriesLeft] the retries still allowed after this attempt and
    [expires] the time at which the operation's overall deadline falls.
    Every error class the upstream can signal as transient ("timeout,
    429, 5xx") is retried, and a retry budget that runs out ends in a
    transient failure.  While a retry is scheduled, "exceeding [the
    deadline] forces a terminal Failed", and for an abandoned operation
    "pending retries must stop scheduling further attempts".  A response
    carrying a job identifier records the job and returns the identifier
    immediately; the polling chain of asynchronous jobs lies outside
    this cycle. *)
Fixpoint attemptCycle (cfg : Config) (env : Env) (req : OperationRequest)
         (expires : Z) (retriesLeft attempt : nat) (w : World) : Outcome * World :=
  let '(admitted, w1) := awaitAdmission cfg req w in
  if negb admitted then (Failed RateLimited limiterDetail, w1) else
  let '(resp, w2) := transport env req w1 in
  match resp with
  | Success _ _ (Some job) =>
      (Submitted job,
       {| ledger := ledger w2; limiter := limiter w2;
          tracker := (JobTracker.create job (clock w2) (tracker w2)).2;
          clock := clock w2; transportCalls := transportCalls w2 |})
  | Success result _ None => (Succeeded result, w2)
  | PermanentError detail => (Failed PermanentFailure detail, w2)
  | TransientError e =>
      match retriesLeft with
      | O => (Failed TransientFailure exhaustedDetail, w2)
      | S n =>
          let delay := Backoff.nextDelay (backoff cfg) attempt e (jitter env) in
          let due := clock w2 + delay in
          if expires <? due
          then (Failed TransientFailure deadlineDetail,
                atTime (Z.max (clock w2) expires) w2)
          else if cancelled env due
          then (Abandoned, atTime due w2)
          else attemptCycle cfg env req expires n (S attempt) (atTime due w2)
      end
  end.

(** Modelled from the spec: the Dispatcher's entry point.  "BudgetExceeded:
    pre-flight check against Credit Ledger fails; surfaced immediately,
    never retried, never dispatched"; otherwise the attempt cycle runs
    with the configured maximum attempt count and the deadline counted
    from now. *)
Definition dispatch (cfg : Config) (env : Env) (req : OperationRequest) (w : World)
  : Outcome * World :=
  if CreditLedger.exhausted (ledger w)
  then (Failed BudgetExceeded budgetDetail, w)
  else attemptCycle cfg env req (clock w + deadline cfg)
         (Nat.pred (Backoff.maxAttempts (backoff cfg))) 0%nat w.






Section Boundary.

(** The guards of the tools whose validators lie beyond the end of
    [src/index.ts] (search, extract, deep research, llms.txt). *)
Variable otherGuard : OperationKind -> value -> completion bool.

(** Modelled from the spec: the protocol boundary in front of the
    Dispatcher (the request handler is missing from src/): "a typed
    Operation Request value per tool invocation, validated against a
    fixed schema before reaching the Dispatcher". *)
Definition guardOf (k : OperationKind) : value -> completion bool :=
  match k with
  | Scrape => isScrapeOptions
  | Map => isMapOptions
  | Crawl => isCrawlOptions
  | BatchScrape => isBatchScrapeOptions
  | CheckBatchStatus | CheckCrawlStatus => isStatusCheckOptions
  | _ => otherGuard k
  end.

(** Modelled from the spec: an invocation becomes an Operation Request
    only when its guard accepts the arguments. *)
Definition validate (k : OperationKind) (args : value) : option OperationRequest :=
  match guardOf k args with
  | Return true => Some {| kind := k; payload := args |}
  | _ => None
  end.

(** Modelled from the spec: "ValidationFailure: malformed Operation
    Request; surfaced immediately, never retried". *)
Definition handleToolCall (cfg : Config) (env : Env) (k : OperationKind)
           (args : value) (w : World) : Outcome * World :=
  match validate k args with
  | Some req => dispatch cfg env req w
  | None => (Failed ValidationFailure invalidDetail, w)
  end.

End Boundary.

End Dispatcher.

(** ** Scenarios of the design's section 8 *)

Module Scenario.

Import Dispatcher.

(** Max attempts 3, base delay 1 s, maximum delay 10 s; a ceiling of 2
    requests per second, served by a bucket of 2 tokens that regains one
    token per second; every operation costs one token; an overall
    deadline of one minute. *)
Definition config : Config := {|
  backoff := {| Backoff.baseDelay := 1000; Backoff.maxDelay := 10000;
                Backoff.maxAttempts := 3 |};
  rate := {| RateLimiter.ceiling := 2; RateLimiter.interval := 1000;
             RateLimiter.capacity := 2; RateLimiter.refillPerInterval := 1 |};
  costOf := fun _ => 1;
  deadline := 60000
|}.

(** An upstream that always answers with a server error, for an
    operation that is never abandoned. *)
Definition failingUpstream : Env := {|
  upstream := fun _ _ => TransientError Backoff.ServerError;
  jitter := 0;
  cancelled := fun _ => false
|}.

(** An upstream that always answers with a transient failure, of a
    different class each time: throttled with a retry-after hint of 3 s,
    then an unclassified error, then timeouts.  The operation drew a
    jitter of +20%. *)
Definition flakyUpstream : Env := {|
  upstream := fun _ n =>
    match n with
    | O => TransientError (Backoff.RateLimited (Some 3000))
    | S O => TransientError Backoff.Unknown
    | _ => TransientError Backoff.NetworkTimeout
    end;
  jitter := 20;
  cancelled := fun _ => false
|}.

(** The same upstream, for an operation the caller abandons after 2 s. *)
Definition abandonedAfter2s : Env := {|
  upstream := upstream flakyUpstream;
  jitter := 20;
  cancelled := fun t => 2000 <=? t
|}.

(** A scrape request for one page. *)
Definition scrapeRequest : OperationRequest := {|
  kind := Scrape;
  payload := Obj {[ "url" := Str "https://example.com" ]}
|}.

(** A fresh process with the given ledger. *)
Definition world (l : CreditLedger.State) : World := {|
  ledger := l;
  limiter := RateLimiter.full (rate config) 0;
  tracker := ∅;
  clock := 0;
  transportCalls := 0
|}.

(** No budget ceiling configured, nothing consumed yet. *)
Definition unlimited : CreditLedger.State :=
  {| CreditLedger.consumed := 0; CreditLedger.budgetCeiling := None |}.

(** "A configured credit budget of 100 units already fully consumed". *)
Definition spent : CreditLedger.State :=
  {| CreditLedger.consumed := 100; CreditLedger.budgetCeiling := Some 100%N |}.

End Scenario.

(** * Properties of the type guards *)

Section Guards.

Import Dispatcher.

Lemma typeof_string_inv (v : value) :
  String.eqb (typeof v) "string" = true -> exists s, v = Str s.
Proof. destruct v; simpl; try discriminate. eauto. Qed.

Lemma string_member_guard_total (k : string) (args : value) :
  exists b, string_member_guard k args = Return b.
Proof.
  unfold string_member_guard.
  destruct args; simpl; eauto.
  - case_bool_decide; simpl; eauto.
  - case_bool_decide; simpl; eauto.
Qed.

Lemma string_member_guard_true (k : string) (args : value) :
  string_member_guard k args = Return true <->
  non_null_object_with_string k args.
Proof.
  unfold string_member_guard, non_null_object_with_string.
  destruct args; simpl; split;
    try discriminate; try (intros (H & _); discriminate H);
    try (intros (_ & H & _); congruence).
  - case_bool_decide as Hin; simpl; [|discriminate].
    destruct Hin as [x Hx]. rewrite Hx. simpl. intros Heq.
    injection Heq as Heq. apply typeof_string_inv in Heq as [s ->].
    repeat split; [discriminate | eauto].
  - intros (_ & _ & s & Hs). rewrite Hs.
    rewrite bool_decide_true by eauto. reflexivity.
  - case_bool_decide as Hin; simpl; [|discriminate].
    destruct Hin as [x Hx]. rewrite Hx. simpl. intros Heq.
    injection Heq as Heq. apply typeof_string_inv in Heq as [s ->].
    repeat split; [discriminate | eauto].
  - intros (_ & _ & s & Hs). rewrite Hs.
    rewrite bool_decide_true by eauto. reflexivity.
Qed.

Lemma string_member_guard_false (k : string) (args : value) :
  string_member_guard k args = Return false <->
  ~ non_null_object_with_string k args.
Proof.
  rewrite <- string_member_guard_true.
  destruct (string_member_guard_total k args) as [[] ->]; split;
    try congruence; try tauto.
Qed.

(** The schema side: the scrape tool requires exactly [url], declared a
    string. *)
Lemma supplies_required_scrape (args : value) :
  supplies_required SCRAPE_TOOL args <-> non_null_object_with_string "url" args.
Proof.
  unfold supplies_required, non_null_object_with_string. simpl.
  split.
  - intros (Hobj & Hnull & Hall). repeat split; trivial.
    apply Forall_cons in Hall as [(x & ty & Hx & Hty & Hhas) _].
    vm_compute in Hty. injection Hty as <-.
    unfold has_json_type in Hhas. simpl in Hhas.
    destruct x; try discriminate. eauto.
  - intros (Hobj & Hnull & s & Hs). repeat split; trivial.
    apply Forall_cons. split; [|constructor].
    exists (Str s), "string". repeat split; trivial.
Qed.

Lemma every_elems_total (l : list value) :
  exists b, every_elems (fun url => Return (String.eqb (typeof url) "string")) l = Return b.
Proof.
  induction l as [|x l [b IH]]; simpl; eauto.
  destruct (String.eqb (typeof x) "string"); simpl; eauto.
Qed.

Lemma isBatchScrapeOptions_total (args : value) :
  exists b, isBatchScrapeOptions args = Return b.
Proof.
  unfold isBatchScrapeOptions.
  destruct args as [| |b|n|s|n|d|elems|props]; simpl; eauto.
  case_bool_decide as Hin; simpl; eauto.
  destruct (props !! "urls") as [[]|]; simpl; eauto.
  apply every_elems_total.
Qed.

(** The batch guard reads the [urls] property and nothing else. *)
Lemma isBatchScrapeOptions_urls_only (props props' : gmap string value) :
  props !! "urls" = props' !! "urls" ->
  isBatchScrapeOptions (Obj props) = isBatchScrapeOptions (Obj props').
Proof.
  intros H. unfold isBatchScrapeOptions. simpl. rewrite H. reflexivity.
Qed.

(** C7. For every input value, [isScrapeOptions] answers [true] exactly
    on the non-null objects that contain a [url] field holding a string,
    and [false] on every other value; [url] is the only property the
    scrape tool's schema requires, declared a string there, so the
    guard accepts exactly the values that supply the schema's required
    properties.  At the protocol boundary a tool invocation becomes an
    Operation Request only when the guard of its tool accepted the
    arguments; otherwise it is answered with a validation failure and
    nothing is dispatched. *)
Theorem isScrapeOptions_accepts_iff
        (otherGuard : OperationKind -> value -> completion bool) (args : value) :
  (isScrapeOptions args = Return true <-> non_null_object_with_string "url" args) /\
  (isScrapeOptions args = Return false <-> ~ non_null_object_with_string "url" args) /\
  required SCRAPE_TOOL = ["url"] /\
  declared_type SCRAPE_TOOL "url" = Some "string" /\
  (isScrapeOptions args = Return true <-> supplies_required SCRAPE_TOOL args) /\
  (forall k req, validate otherGuard k args = Some req ->
                 guardOf otherGuard k args = Return true /\
                 req = {| kind := k; payload := args |}) /\
  (forall cfg env k w, guardOf otherGuard k args <> Return true ->
                       handleToolCall otherGuard cfg env k args w
                       = (Failed ValidationFailure invalidDetail, w)).
Proof.
  change (isScrapeOptions args) with (string_member_guard "url" args).
  split; [apply string_member_guard_true|].
  split; [apply string_member_guard_false|].
  split; [reflexivity|].
  split; [vm_compute; reflexivity|].
  split; [rewrite supplies_required_scrape; apply string_member_guard_true|].
  split.
  - intros k req. unfold validate.
    destruct (guardOf otherGuard k args) as [[]|]; try discriminate.
    intros [= <-]. split; reflexivity.
  - intros cfg env k w Hg. unfold handleToolCall, validate.
    destruct (guardOf otherGuard k args) as [[]|]; try reflexivity.
    congruence.
Qed.

(** C8. The guards [isScrapeOptions], [isMapOptions] and
    [isCrawlOptions] are extensionally equal: on every input value the
    three complete with the same boolean, which is [true] exactly when
    the value is a non-null object with a string-valued [url] field. *)
Theorem url_guards_extensionally_equal (args : value) :
  exists b : bool,
    isScrapeOptions args = Return b /\
    isMapOptions args = Return b /\
    isCrawlOptions args = Return b /\
    (b = true <-> non_null_object_with_string "url" args).
Proof.
  change (isScrapeOptions args) with (string_member_guard "url" args).
  change (isMapOptions args) with (string_member_guard "url" args).
  change (isCrawlOptions args) with (string_member_guard "url" args).
  destruct (string_member_guard_total "url" args) as [b Hb].
  exists b. rewrite Hb. do 3 (split; [reflexivity|]). split.
  - intros ->. apply string_member_guard_true. exact Hb.
  - intros H. apply string_member_guard_true in H. congruence.
Qed.

(** C9. Every type guard is total: on every input value ([null],
    [undefined], primitives and arrays included) it completes with a
    boolean and never throws. *)
Theorem type_guards_total (args : value) :
  (exists b, isScrapeOptions args = Return b) /\
  (exists b, isMapOptions args = Return b) /\
  (exists b, isCrawlOptions args = Return b) /\
  (exists b, isBatchScrapeOptions args = Return b) /\
  (exists b, isStatusCheckOptions args = Return b).
Proof.
  repeat split.
  - apply (string_member_guard_total "url").
  - apply (string_member_guard_total "url").
  - apply (string_member_guard_total "url").
  - apply isBatchScrapeOptions_total.
  - apply (string_member_guard_total "id").
Qed.

(** C10. [isBatchScrapeOptions] answers [true] on every object whose
    [urls] field is the empty array, and its answer does not depend on
    the [options] field: setting [options] to any value, or removing it,
    leaves the answer unchanged. *)
Theorem isBatchScrapeOptions_empty_urls (props : gmap string value) (v : value) :
  isBatchScrapeOptions (Obj (<["urls" := Arr []]> props)) = Return true /\
  isBatchScrapeOptions (Obj (<["options" := v]> props)) = isBatchScrapeOptions (Obj props) /\
  isBatchScrapeOptions (Obj (delete "options" props)) = isBatchScrapeOptions (Obj props).
Proof.
  repeat split.
  - unfold isBatchScrapeOptions. simpl.
    rewrite lookup_insert_eq. reflexivity.
  - apply isBatchScrapeOptions_urls_only.
    apply lookup_insert_ne. discriminate.
  - apply isBatchScrapeOptions_urls_only.
    apply lookup_delete_ne. discriminate.
Qed.

Example isScrapeOptions_url :
  isScrapeOptions (Obj {[ "url" := Str "https://example.com" ]}) = Return true.
Proof. vm_compute. reflexivity. Qed.

Example isScrapeOptions_null : isScrapeOptions Null = Return false.
Proof. reflexivity. Qed.

Example isScrapeOptions_undefined : isScrapeOptions Undefined = Return false.
Proof. reflexivity. Qed.

Example isScrapeOptions_array : isScrapeOptions (Arr [Str "url"]) = Return false.
Proof. reflexivity. Qed.

Example isScrapeOptions_number_url :
  isScrapeOptions (Obj {[ "url" := Number 7 ]}) = Return false.
Proof. vm_compute. reflexivity. Qed.

Example isBatchScrapeOptions_mixed :
  isBatchScrapeOptions (Obj {[ "urls" := Arr [Str "a"; Number 1] ]}) = Return false.
Proof. vm_compute. reflexivity. Qed.

(** The schema declares [options] an object, the guard accepts a number
    there. *)
Example isBatchScrapeOptions_bad_options :
  declared_type BATCH_SCRAPE_TOOL "options" = Some "object" /\
  isBatchScrapeOptions (Obj (<[ "options" := Number 3 ]> {[ "urls" := Arr [] ]})) = Return true.
Proof. split; vm_compute; reflexivity. Qed.

End Guards.

(** * Properties of the Credit Ledger *)

Section LedgerProperties.

Import CreditLedger.

Lemma total_app (a b : list N) : total (a ++ b) = (total a + total b)%N.
Proof.
  induction a as [|x a IH]; simpl; [reflexivity|].
  unfold total in *. simpl. rewrite IH. lia.
Qed.

Lemma runSchedule_app (l : State) (a b : list N) :
  runSchedule l (a ++ b) = runSchedule (runSchedule l a) b.
Proof. unfold runSchedule. apply foldl_app. Qed.

Lemma consumed_runSchedule (l : State) (schedule : list N) :
  consumed (runSchedule l schedule) = (consumed l + total schedule)%N.
Proof.
  revert l. induction schedule as [|u s IH]; intros l.
  - unfold total. simpl. lia.
  - change (runSchedule l (u :: s)) with (runSchedule (recordUsage u l) s).
    rewrite IH. unfold total. simpl. lia.
Qed.

Lemma budgetCeiling_runSchedule (l : State) (schedule : list N) :
  budgetCeiling (runSchedule l schedule) = budgetCeiling l.
Proof.
  revert l. induction schedule as [|u s IH]; intros l; [reflexivity|].
  change (runSchedule l (u :: s)) with (runSchedule (recordUsage u l) s).
  rewrite IH. reflexivity.
Qed.

Lemma total_concat_middle (before after : list (list N)) (u : N) (rest : list N) :
  total (concat (before ++ (u :: rest) :: after))
  = (u + total (concat (before ++ rest :: after)))%N.
Proof.
  rewrite !concat_app. simpl. rewrite !total_app.
  change (total (u :: rest ++ concat after)) with (u + total (rest ++ concat after))%N.
  rewrite total_app. lia.
Qed.

Lemma total_concat_nil (callers : list (list N)) :
  Forall (fun calls => calls = []) callers -> total (concat callers) = 0%N.
Proof.
  induction 1 as [|c cs Hc _ IH]; [reflexivity|].
  subst c. simpl. exact IH.
Qed.

Lemma interleaving_total (callers : list (list N)) (schedule : list N) :
  interleaving callers schedule -> total schedule = total (concat callers).
Proof.
  induction 1 as [callers Hnil | before after u rest schedule _ IH].
  - rewrite total_concat_nil by assumption. reflexivity.
  - rewrite total_concat_middle, <- IH. reflexivity.
Qed.

(** C3. Whatever the interleaving of the callers' [recordUsage] calls,
    the consumed counter never decreases from one point of the schedule
    to a later one, and once all calls have completed it has grown by
    the sum of all recorded usages (it equals that sum for a ledger that
    starts at zero). *)
Theorem recordUsage_monotone_and_exact
        (l : State) (callers : list (list N)) (schedule : list N) :
  interleaving callers schedule ->
  (forall i j : nat, (i <= j)%nat ->
     (consumed (runSchedule l (take i schedule))
      <= consumed (runSchedule l (take j schedule)))%N) /\
  consumed (runSchedule l schedule) = (consumed l + total (concat callers))%N /\
  (consumed l = 0%N ->
   consumed (runSchedule l schedule) = total (concat callers)).
Proof.
  intros Hint. split; [|split].
  - intros i j Hij.
    replace (take j schedule)
      with (take i schedule ++ take (j - i) (drop i schedule))%list.
    + rewrite runSchedule_app, (consumed_runSchedule (runSchedule _ _)). lia.
    + rewrite take_take_drop. f_equal. lia.
  - rewrite consumed_runSchedule, (interleaving_total _ _ Hint). reflexivity.
  - intros H0. rewrite consumed_runSchedule, (interleaving_total _ _ Hint), H0.
    lia.
Qed.

Example interleaving_two_callers :
  interleaving [[1; 2]; [3]]%N [1; 3; 2]%N.
Proof.
  apply (interleaving_step [] [[3%N]] 1%N [2%N]). simpl.
  apply (interleaving_step [[2%N]] [] 3%N []). simpl.
  apply (interleaving_step [] [[]] 2%N []). simpl.
  apply interleaving_done. repeat constructor.
Qed.

Lemma recordUsage_monotone_and_exact_witness :
  let l := {| consumed := 0; budgetCeiling := Some 100%N |} in
  let schedule := [1; 3; 2]%N in
  let callers := [[1; 2]; [3]]%N in
  (forall i j : nat, (i <= j)%nat ->
     (consumed (runSchedule l (take i schedule))
      <= consumed (runSchedule l (take j schedule)))%N) /\
  consumed (runSchedule l schedule) = (consumed l + total (concat callers))%N /\
  (consumed l = 0%N ->
   consumed (runSchedule l schedule) = total (concat callers)).
Proof.
  intros l schedule callers.
  apply (recordUsage_monotone_and_exact l callers schedule).
  exact interleaving_two_callers.
Defined.

End LedgerProperties.

(** * Properties of the Job Tracker *)

Section TrackerProperties.

Import JobTracker.

Lemma update_unknown (id : string) (st : Status) (fragment : option string)
      (now : Z) (t : gmap string JobRecord) :
  t !! id = None -> update id st fragment now t !! id = None.
Proof.
  intros H. unfold update. rewrite lookup_alter. case_decide; [|congruence].
  rewrite H. reflexivity.
Qed.

(** C6. For every job identifier that is not present in the Job
    Tracker, [get] returns the [NotFound] outcome: it returns no record
    (and, being a total function, it cannot fail in any other way). *)
Theorem get_unknown_is_NotFound (t : gmap string JobRecord) (id : string) :
  t !! id = None ->
  get id t = NotFound /\ (forall r, get id t <> Found r).
Proof.
  intros H. unfold get. rewrite H. split; [reflexivity|discriminate].
Qed.

Lemma get_unknown_is_NotFound_witness :
  get "J2" (create "J1" 0 ∅).2 = NotFound /\
  (forall r, get "J2" (create "J1" 0 ∅).2 <> Found r).
Proof.
  apply get_unknown_is_NotFound. vm_compute. reflexivity.
Defined.

End TrackerProperties.

(** * Properties of the Backoff Policy *)

Section BackoffProperties.

Import Backoff.


Lemma computedDelay_range (cfg : Config) (a : nat) :
  0 <= baseDelay cfg -> 0 <= maxDelay cfg ->
  0 <= computedDelay cfg a <= maxDelay cfg.
Proof.
  intros Hb Hm. unfold computedDelay. split; [|apply Z.le_min_r].
  apply Z.min_glb; [|assumption].
  apply Z.mul_nonneg_nonneg; [assumption|].
  apply Z.pow_nonneg. lia.
Qed.

Lemma withJitter_scaled (d j : Z) : withJitter d j = d * (100 + j) / 100.
Proof.
  unfold withJitter.
  replace (d * (100 + j)) with (d * j + d * 100) by ring.
  rewrite Z.div_add by lia. lia.
Qed.


Lemma withJitter_upper (d j : Z) :
  validJitter j -> 0 <= d -> withJitter d j <= d + d / 2.
Proof.
  unfold validJitter, withJitter. intros Hj Hd.
  assert (d * j / 100 <= d * 50 / 100).
  { apply Z.div_le_mono; [lia|]. apply Z.mul_le_mono_nonneg_l; lia. }
  assert (d * 50 / 100 = d / 2).
  { replace 100 with (50 * 2) by reflexivity.
    rewrite Z.mul_comm, Z.div_mul_cancel_l; lia. }
  lia.
Qed.

Lemma withJitter_lower (d j : Z) :
  validJitter j -> 0 <= d -> d / 2 <= withJitter d j.
Proof.
  unfold validJitter. intros Hj Hd. rewrite withJitter_scaled.
  replace (d / 2) with (d * 50 / 100).
  - apply Z.div_le_mono; [lia|]. apply Z.mul_le_mono_nonneg_l; lia.
  - replace 100 with (50 * 2) by reflexivity.
    rewrite Z.mul_comm, Z.div_mul_cancel_l; lia.
Qed.



(** A retry-after hint is honoured as far as the bound allows, and the
    jitter never takes more than half of the computed delay away. *)
Lemma nextDelay_honours_hint (cfg : Config) (a : nat) (h j : Z) :
  0 <= baseDelay cfg -> 0 <= maxDelay cfg -> validJitter j ->
  Z.min h (maxDelay cfg + maxJitter cfg) <= nextDelay cfg a (RateLimited (Some h)) j /\
  computedDelay cfg a / 2 <= nextDelay cfg a (RateLimited (Some h)) j.
Proof.
  intros Hb Hm Hj.
  destruct (computedDelay_range cfg a Hb Hm) as [H0 Hle].
  pose proof (withJitter_upper _ j Hj H0) as Hup.
  pose proof (withJitter_lower _ j Hj H0) as Hlo.
  assert (computedDelay cfg a / 2 <= maxJitter cfg)
    by (apply Z.div_le_mono; lia).
  unfold nextDelay. simpl. lia.
Qed.


Example nextDelay_doubles :
  let cfg := {| baseDelay := 1000; maxDelay := 10000; maxAttempts := 5 |} in
  List.map (fun a => nextDelay cfg a ServerError 0) [0; 1; 2; 3; 4; 5]%nat
  = [1000; 2000; 4000; 8000; 10000; 10000].
Proof. reflexivity. Qed.

(** A hint of 3 s lifts the short delays of the first attempts; a hint
    of one minute is cut at the cap plus the largest jitter. *)
Example nextDelay_with_hint :
  let cfg := {| baseDelay := 1000; maxDelay := 10000; maxAttempts := 5 |} in
  List.map (fun a => nextDelay cfg a (RateLimited (Some 3000)) (-50)) [0; 1; 2; 3; 4]%nat
  = [3000; 3000; 3000; 4000; 5000] /\
  nextDelay cfg 0 (RateLimited (Some 60000)) (-50) = 15000.
Proof. split; reflexivity. Qed.


End BackoffProperties.

(** * Properties of the Rate Limiter *)

Section RateLimiterProperties.

Import RateLimiter.

Variable cfg : Config.
Hypothesis interval_pos : 0 < interval cfg.
Hypothesis refill_nonneg : 0 <= refillPerInterval cfg.








End RateLimiterProperties.



(** Section 8's scenario: with a ceiling of 2 requests per second, of 5
    requests arriving together 2 are admitted and the remaining 3 are
    told when to come back. *)
Example rate_limiter_five_concurrent :
  let cfg := Dispatcher.rate Scenario.config in
  List.map snd
    (RateLimiter.serve cfg (RateLimiter.full cfg 0)
       (replicate 5 {| RateLimiter.arrival := 0; RateLimiter.cost := 1 |}))
  = [ RateLimiter.AdmittedNow; RateLimiter.AdmittedNow;
      RateLimiter.MustWaitUntil 1000; RateLimiter.MustWaitUntil 1000;
      RateLimiter.MustWaitUntil 1000 ].
Proof. reflexivity. Qed.

(** Provisioning matters: a bucket of 2 tokens that regains 2 tokens per
    second is not provisioned for a ceiling of 2, and lets a third
    request through within one second. *)
Example unprovisioned_bucket_overshoots :
  let cfg := {| RateLimiter.ceiling := 2; RateLimiter.interval := 1000;
                RateLimiter.capacity := 2; RateLimiter.refillPerInterval := 2 |} in
  ~ RateLimiter.provisioned cfg /\
  List.map snd
    (RateLimiter.serve cfg (RateLimiter.full cfg 0)
       [ {| RateLimiter.arrival := 0; RateLimiter.cost := 1 |};
         {| RateLimiter.arrival := 0; RateLimiter.cost := 1 |};
         {| RateLimiter.arrival := 500; RateLimiter.cost := 1 |} ])
  = [ RateLimiter.AdmittedNow; RateLimiter.AdmittedNow; RateLimiter.AdmittedNow ].
Proof.
  split; [|reflexivity]. unfold RateLimiter.provisioned. simpl. lia.
Qed.


(** * Properties of the Dispatcher *)

Section DispatcherProperties.

Import Dispatcher.










(** C4. For every new operation request arriving when the configured
    credit budget is already fully consumed, the Dispatcher answers
    BudgetExceeded and leaves the whole shared state as it was: the
    Transport Client has been invoked zero times for the request and the
    Credit Ledger is unchanged. *)
Theorem dispatch_budget_exceeded
        (cfg : Config) (env : Env) (req : OperationRequest) (w : World) (c : N) :
  CreditLedger.budgetCeiling (ledger w) = Some c ->
  (c <= CreditLedger.consumed (ledger w))%N ->
  dispatch cfg env req w = (Failed BudgetExceeded budgetDetail, w) /\
  transportCalls (dispatch cfg env req w).2 = transportCalls w /\
  ledger (dispatch cfg env req w).2 = ledger w.
Proof.
  intros Hc Hle.
  assert (Hd : dispatch cfg env req w = (Failed BudgetExceeded budgetDetail, w)).
  { unfold dispatch, CreditLedger.exhausted. rewrite Hc.
    apply N.leb_le in Hle. rewrite Hle. reflexivity. }
  rewrite Hd. auto.
Qed.

Example dispatch_retries_three_times :
  dispatch Scenario.config Scenario.failingUpstream Scenario.scrapeRequest
           (Scenario.world Scenario.unlimited)
  = (Failed TransientFailure exhaustedDetail,
     {| ledger := Scenario.unlimited;
        limiter := {| RateLimiter.level := 1000; RateLimiter.lastRefill := 3000 |};
        tracker := ∅; clock := 3000; transportCalls := 3 |}).
Proof. vm_compute. reflexivity. Qed.

(** With a deadline of 2.5 s the second retry, due after 3 s, is not
    made: the operation ends after two attempts. *)
Example dispatch_deadline_cuts_retries :
  let cfg := {| backoff := backoff Scenario.config; rate := rate Scenario.config;
                costOf := costOf Scenario.config; deadline := 2500 |} in
  (dispatch cfg Scenario.failingUpstream Scenario.scrapeRequest
            (Scenario.world Scenario.unlimited)).1
  = Failed TransientFailure deadlineDetail /\
  transportCalls
    (dispatch cfg Scenario.failingUpstream Scenario.scrapeRequest
              (Scenario.world Scenario.unlimited)).2 = 2%nat.
Proof. split; vm_compute; reflexivity. Qed.

(** An operation abandoned after 2 s schedules no retry once its first
    attempt has failed. *)
Example dispatch_abandoned_stops_retrying :
  (dispatch Scenario.config Scenario.abandonedAfter2s Scenario.scrapeRequest
            (Scenario.world Scenario.unlimited)).1 = Abandoned /\
  transportCalls
    (dispatch Scenario.config Scenario.abandonedAfter2s Scenario.scrapeRequest
              (Scenario.world Scenario.unlimited)).2 = 1%nat.
Proof. split; vm_compute; reflexivity. Qed.

(** A request that costs more than the bucket holds is never admitted,
    and never sent. *)
Example dispatch_unservable_is_not_sent :
  let cfg := {| backoff := backoff Scenario.config; rate := rate Scenario.config;
                costOf := fun _ => 3; deadline := deadline Scenario.config |} in
  (dispatch cfg Scenario.failingUpstream Scenario.scrapeRequest
            (Scenario.world Scenario.unlimited)).1
  = Failed RateLimited limiterDetail /\
  transportCalls
    (dispatch cfg Scenario.failingUpstream Scenario.scrapeRequest
              (Scenario.world Scenario.unlimited)).2 = 0%nat.
Proof. split; vm_compute; reflexivity. Qed.


Lemma dispatch_budget_exceeded_witness :
  dispatch Scenario.config Scenario.failingUpstream Scenario.scrapeRequest
           (Scenario.world Scenario.spent)
  = (Failed BudgetExceeded budgetDetail, Scenario.world Scenario.spent) /\
  transportCalls
    (dispatch Scenario.config Scenario.failingUpstream Scenario.scrapeRequest
              (Scenario.world Scenario.spent)).2
  = transportCalls (Scenario.world Scenario.spent) /\
  ledger
    (dispatch Scenario.config Scenario.failingUpstream Scenario.scrapeRequest
              (Scenario.world Scenario.spent)).2
  = ledger (Scenario.world Scenario.spent).
Proof.
  apply (dispatch_budget_exceeded
           Scenario.config Scenario.failingUpstream Scenario.scrapeRequest
           (Scenario.world Scenario.spent) 100%N).
  - reflexivity.
  - simpl. lia.
Defined.

End DispatcherProperties.

(** * Further properties of the type guards and the tool schemas *)

Section GuardsAndSchemas.

Lemma every_strings_true (l : list value) :
  every_elems (fun url => Return (String.eqb (typeof url) "string")) l = Return true
  <-> Forall is_string l.
Proof.
  induction l as [|x l IH]; simpl.
  - split; [constructor | reflexivity].
  - destruct (String.eqb (typeof x) "string") eqn:Hx; simpl.
    + rewrite IH. apply typeof_string_inv in Hx. split.
      * intros Hl. constructor; assumption.
      * intros Hall. apply Forall_cons in Hall as [_ Hl]. exact Hl.
    + split; [discriminate|].
      intros Hall. apply Forall_cons in Hall as [[s ->] _]. discriminate Hx.
Qed.

(** On an object whose [urls] is an array, the batch guard is the
    element test run over that array. *)
Lemma isBatchScrapeOptions_urls_array (props : gmap string value) (l : list value) :
  isBatchScrapeOptions (Obj (<["urls" := Arr l]> props))
  = every_elems (fun url => Return (String.eqb (typeof url) "string")) l.
Proof.
  unfold isBatchScrapeOptions. simpl. rewrite lookup_insert_eq. reflexivity.
Qed.

Lemma isBatchScrapeOptions_true (args : value) :
  isBatchScrapeOptions args = Return true <->
  non_null_object_with_strings "urls" args.
Proof.
  unfold non_null_object_with_strings.
  destruct args as [| |b|n|s|n|d|elems|props]; simpl; split;
    try discriminate; try (intros (H & _); discriminate H);
    try (intros (_ & H & _); congruence);
    try (intros (_ & _ & l & H & _); discriminate H).
  - unfold isBatchScrapeOptions. simpl.
    case_bool_decide as Hin; simpl; [|discriminate].
    destruct (props !! "urls") as [[]|]; simpl; try discriminate.
    intros Hev. apply every_strings_true in Hev.
    repeat split; [discriminate | eauto].
  - intros (_ & _ & l & Hl & Hall).
    unfold isBatchScrapeOptions. simpl. rewrite Hl. simpl.
    apply every_strings_true. exact Hall.
Qed.

Lemma supplies_required_string_key (t : Tool) (k : string) (args : value) :
  required t = [k] -> declared_type t k = Some "string" ->
  supplies_required t args <-> non_null_object_with_string k args.
Proof.
  intros Hreq Hty. unfold supplies_required, non_null_object_with_string.
  rewrite Hreq. split.
  - intros (Hobj & Hnull & Hall). repeat split; trivial.
    apply Forall_cons in Hall as [(x & ty & Hx & Hty' & Hhas) _].
    rewrite Hty in Hty'. injection Hty' as <-.
    unfold has_json_type in Hhas. simpl in Hhas.
    destruct x; try discriminate. eauto.
  - intros (Hobj & Hnull & s & Hs). repeat split; trivial.
    apply Forall_cons. split; [|constructor].
    exists (Str s), "string". repeat split; trivial.
Qed.

Lemma string_member_guard_key_only (k : string) (props props' : gmap string value) :
  props !! k = props' !! k ->
  string_member_guard k (Obj props) = string_member_guard k (Obj props').
Proof.
  intros H. unfold string_member_guard. simpl. rewrite H. reflexivity.
Qed.

Lemma string_member_guard_non_object (k : string) (args : value) :
  (forall props, args <> Obj props) ->
  String.eqb k "length" = false -> array_index k = None ->
  string_member_guard k args = Return false.
Proof.
  intros Hno Hlen Hidx. unfold string_member_guard.
  destruct args as [| |b|n|s|n|d|elems|props]; simpl; try reflexivity.
  - rewrite Hlen, Hidx. reflexivity.
  - destruct (Hno props). reflexivity.
Qed.

(** X1. [isBatchScrapeOptions] answers [true] exactly on the non-null
    objects whose [urls] field is an array all of whose elements are
    strings, and [false] on every other value. *)
Theorem isBatchScrapeOptions_accepts_iff (args : value) :
  (isBatchScrapeOptions args = Return true
   <-> non_null_object_with_strings "urls" args) /\
  (isBatchScrapeOptions args = Return false
   <-> ~ non_null_object_with_strings "urls" args).
Proof.
  split; [apply isBatchScrapeOptions_true|].
  rewrite <- isBatchScrapeOptions_true.
  destruct (isBatchScrapeOptions_total args) as [[] ->]; split;
    try congruence; try tauto.
Qed.

(** X2. [isStatusCheckOptions] answers [true] exactly on the non-null
    objects that contain an [id] field holding a string, and [false] on
    every other value; these are exactly the values that supply the one
    required property of the two status tools' schemas. *)
Theorem isStatusCheckOptions_accepts_iff (args : value) :
  (isStatusCheckOptions args = Return true
   <-> non_null_object_with_string "id" args) /\
  (isStatusCheckOptions args = Return false
   <-> ~ non_null_object_with_string "id" args) /\
  (isStatusCheckOptions args = Return true
   <-> supplies_required CHECK_BATCH_STATUS_TOOL args) /\
  (isStatusCheckOptions args = Return true
   <-> supplies_required CHECK_CRAWL_STATUS_TOOL args).
Proof.
  change (isStatusCheckOptions args) with (string_member_guard "id" args).
  split; [apply string_member_guard_true|].
  split; [apply string_member_guard_false|].
  split.
  - rewrite (supplies_required_string_key CHECK_BATCH_STATUS_TOOL "id")
      by (vm_compute; reflexivity).
    apply string_member_guard_true.
  - rewrite (supplies_required_string_key CHECK_CRAWL_STATUS_TOOL "id")
      by (vm_compute; reflexivity).
    apply string_member_guard_true.
Qed.

(** X3. Every guard answers [false], without throwing, on every value
    that is not a plain object: [undefined], [null], booleans, numbers,
    strings, bigints, symbols and arrays. *)
Theorem guards_reject_non_objects (args : value) :
  (forall props, args <> Obj props) ->
  Forall (fun gk => gk.1 args = Return false) all_guards.
Proof.
  intros Hno. unfold all_guards, string_guards. simpl.
  repeat (apply Forall_cons; split); try constructor; simpl.
  - apply (string_member_guard_non_object "url"); trivial.
  - apply (string_member_guard_non_object "url"); trivial.
  - apply (string_member_guard_non_object "url"); trivial.
  - apply (string_member_guard_non_object "id"); trivial.
  - unfold isBatchScrapeOptions.
    destruct args as [| |b|n|s|n|d|elems|props]; simpl; try reflexivity.
    destruct (Hno props). reflexivity.
Qed.

Lemma guards_reject_non_objects_witness :
  Forall (fun gk => gk.1 (Arr [Str "https://example.com"]) = Return false)
         all_guards.
Proof.
  apply (guards_reject_non_objects (Arr [Str "https://example.com"])).
  intros props. discriminate.
Defined.

(** X4. Every guard reads one property of its argument and nothing
    else: two objects that agree on the guard's key ([url], [id] or
    [urls]) get the same answer, whatever their other properties are. *)
Theorem guards_read_only_their_key (props props' : gmap string value) :
  Forall (fun gk => props !! gk.2 = props' !! gk.2 ->
                    gk.1 (Obj props) = gk.1 (Obj props')) all_guards.
Proof.
  unfold all_guards, string_guards. simpl.
  repeat (apply Forall_cons; split); try constructor; simpl.
  - apply (string_member_guard_key_only "url").
  - apply (string_member_guard_key_only "url").
  - apply (string_member_guard_key_only "url").
  - apply (string_member_guard_key_only "id").
  - apply isBatchScrapeOptions_urls_only.
Qed.

(** X5. For each of the guards [isScrapeOptions], [isMapOptions],
    [isCrawlOptions] (key [url]) and [isStatusCheckOptions] (key [id]):
    setting the key of any object to any string, the empty one included,
    makes the guard accept; removing the key makes it reject; and
    setting the key to a value that is not a string makes it reject. *)
Theorem string_guards_follow_their_key
        (props : gmap string value) (s : string) (v : value) :
  Forall (fun gk =>
            gk.1 (Obj (<[gk.2 := Str s]> props)) = Return true /\
            gk.1 (Obj (delete gk.2 props)) = Return false /\
            (~ is_string v -> gk.1 (Obj (<[gk.2 := v]> props)) = Return false))
         string_guards.
Proof.
  assert (Hgen : forall k,
    string_member_guard k (Obj (<[k := Str s]> props)) = Return true /\
    string_member_guard k (Obj (delete k props)) = Return false /\
    (~ is_string v -> string_member_guard k (Obj (<[k := v]> props)) = Return false)).
  { intros k. split; [|split].
    - apply string_member_guard_true. repeat split; [discriminate|].
      exists s. simpl. apply lookup_insert_eq.
    - apply string_member_guard_false. intros (_ & _ & s' & Hs').
      simpl in Hs'. rewrite lookup_delete_eq in Hs'. discriminate.
    - intros Hv. apply string_member_guard_false. intros (_ & _ & s' & Hs').
      simpl in Hs'. rewrite lookup_insert_eq in Hs'. injection Hs' as ->.
      apply Hv. exists s'. reflexivity. }
  unfold string_guards.
  apply Forall_cons_2; [apply (Hgen "url")|].
  apply Forall_cons_2; [apply (Hgen "url")|].
  apply Forall_cons_2; [apply (Hgen "url")|].
  apply Forall_cons_2; [apply (Hgen "id")|].
  constructor.
Qed.

(** X6. [isMapOptions] accepts exactly the values that supply the
    required properties of the map tool's schema, and [isCrawlOptions]
    exactly those that supply the required properties of the crawl
    tool's schema. *)
Theorem url_guards_match_their_schemas (args : value) :
  (isMapOptions args = Return true <-> supplies_required MAP_TOOL args) /\
  (isCrawlOptions args = Return true <-> supplies_required CRAWL_TOOL args).
Proof.
  change (isMapOptions args) with (string_member_guard "url" args).
  change (isCrawlOptions args) with (string_member_guard "url" args).
  split.
  - rewrite (supplies_required_string_key MAP_TOOL "url")
      by (vm_compute; reflexivity).
    apply string_member_guard_true.
  - rewrite (supplies_required_string_key CRAWL_TOOL "url")
      by (vm_compute; reflexivity).
    apply string_member_guard_true.
Qed.

(** X7. [isBatchScrapeOptions] is stricter than the top level of the
    batch tool's schema: it accepts exactly the values that supply the
    schema's required [urls] array and whose [urls] elements are all
    strings. *)
Theorem isBatchScrapeOptions_refines_schema (args : value) :
  isBatchScrapeOptions args = Return true <->
  supplies_required BATCH_SCRAPE_TOOL args /\
  (forall elems, own_property args "urls" = Some (Arr elems) ->
                 Forall is_string elems).
Proof.
  rewrite isBatchScrapeOptions_true.
  unfold non_null_object_with_strings, supplies_required. simpl. split.
  - intros (Hobj & Hnull & l & Hl & Hall). split.
    + repeat split; trivial. apply Forall_cons. split; [|constructor].
      exists (Arr l), "array". repeat split; trivial.
    + intros elems He. rewrite Hl in He. injection He as <-. exact Hall.
  - intros ((Hobj & Hnull & Hreq) & Hall). repeat split; trivial.
    apply Forall_cons in Hreq as [(x & ty & Hx & Hty & Hhas) _].
    vm_compute in Hty. injection Hty as <-.
    unfold has_json_type in Hhas. simpl in Hhas.
    destruct x; try discriminate. eauto.
Qed.

(** X8. Batches compose: an object whose [urls] is the concatenation of
    two arrays is accepted by [isBatchScrapeOptions] exactly when it is
    accepted with each of the two arrays as its [urls]. *)
Theorem isBatchScrapeOptions_concat
        (props : gmap string value) (l1 l2 : list value) :
  isBatchScrapeOptions (Obj (<["urls" := Arr (l1 ++ l2)]> props)) = Return true
  <->
  isBatchScrapeOptions (Obj (<["urls" := Arr l1]> props)) = Return true /\
  isBatchScrapeOptions (Obj (<["urls" := Arr l2]> props)) = Return true.
Proof.
  rewrite !isBatchScrapeOptions_urls_array, !every_strings_true.
  apply Forall_app.
Qed.

(** X9. The batch guard and the scrape guard agree on what a URL is: a
    batch is accepted by [isBatchScrapeOptions] exactly when every
    element of its [urls] would be accepted by [isScrapeOptions] as the
    [url] of a single scrape request. *)
Theorem isBatchScrapeOptions_elementwise
        (props : gmap string value) (l : list value) :
  isBatchScrapeOptions (Obj (<["urls" := Arr l]> props)) = Return true
  <->
  Forall (fun u => isScrapeOptions (Obj {[ "url" := u ]}) = Return true) l.
Proof.
  rewrite isBatchScrapeOptions_urls_array, every_strings_true.
  apply Forall_iff. intros u.
  change (isScrapeOptions (Obj {[ "url" := u ]}))
    with (string_member_guard "url" (Obj {[ "url" := u ]})).
  rewrite string_member_guard_true.
  unfold non_null_object_with_string, is_string. simpl.
  rewrite lookup_singleton_eq. split.
  - intros [s ->]. repeat split; [discriminate | eauto].
  - intros (_ & _ & s & Hs). injection Hs as ->. eauto.
Qed.

(** X10. The ten tool constants have pairwise distinct names; none
    declares a property twice; and each requires exactly one property,
    which it declares as a string or as an array. *)
Theorem tool_schemas_well_formed :
  NoDup (name <$> TOOLS) /\
  Forall (fun t => NoDup ((properties t).*1)) TOOLS /\
  Forall (fun t => exists k ty, required t = [k] /\
                                declared_type t k = Some ty /\
                                (ty = "string" \/ ty = "array")) TOOLS.
Proof.
  split; [|split].
  - compute_done.
  - unfold TOOLS. repeat (apply Forall_cons_2); try constructor; compute_done.
  - unfold TOOLS. repeat (apply Forall_cons_2); try constructor;
      eexists _, _; (split; [reflexivity|]);
      (split; [vm_compute; reflexivity|]); auto.
Qed.

End GuardsAndSchemas.
